(** * pkg/rpc/interceptor.go: the gRPC interceptors of Dragonfly

    A shallow embedding of the interceptors of package [rpc]: the one-time
    construction of the tracing interceptors, the refresher interceptors, the
    rate limiter predicate and the error-converting interceptors.

    Go values are embedded as follows.
    - An [error] is [option error_value]; [None] is Go's [nil].
    - A mutable object reached through a pointer (the token bucket, the
      package-level variables) is passed explicitly: an operation takes the
      object and returns its result together with the object afterwards.
    - The clock read by the token bucket is an argument of the operation.
    - The next stage of a call (invoker, streamer, handler) and the refresher
      act on an abstract [World]; every call of one of them is recorded in a
      trace, so that "invoked exactly once" and "never invoked" are
      statements about that trace. *)

From Stdlib Require Import ZArith NArith QArith Qround List String Bool Lia.
Import ListNotations.

Open Scope Z_scope.

(** ** google.golang.org/grpc/codes *)

Module codes.

(** [type Code uint32]: the numbers of the status codes the interceptors
    name, with the two neighbours used in the examples. *)
Definition Code := N.

Definition OK : Code := 0%N.
Definition Unknown : Code := 2%N.
Definition NotFound : Code := 5%N.
Definition ResourceExhausted : Code := 8%N.
Definition Internal : Code := 13%N.
Definition Unavailable : Code := 14%N.

End codes.

(** ** Errors *)

(** The error values the interceptors can tell apart: an error that carries a
    gRPC status (it answers [GRPCStatus()]), a [*dferrors.DfError] (a code and
    a message), and any other error. *)
Inductive error_value : Type :=
| StatusError (code : codes.Code) (message : string)
| DfError (code : Z) (message : string)
| PlainError (message : string).

(** Go's [error]: [None] is [nil]. *)
Definition error := option error_value.

(** The text of [err.Error()], as far as the model needs it. *)
Definition Error (e : error_value) : string :=
  match e with
  | StatusError _ m => m
  | DfError _ m => m
  | PlainError m => m
  end.

(** ** google.golang.org/grpc/status *)

Module status.

Record Status := New { code : codes.Code; message : string }.

(** Modelled from the spec: [status.FromError] belongs to
    google.golang.org/grpc, which is not under src/.  The spec (section 4.4)
    has the interceptor "inspect the resulting failure, if any, for its wire
    status code".  A [nil] error gives the [nil] status with [ok = true]; an
    error that carries a status gives that status with [ok = true]; any other
    error gives a status of code [Unknown] with [ok = false]. *)
Definition FromError (err : error) : option Status * bool :=
  match err with
  | None => (None, true)
  | Some (StatusError c m) => (Some (New c m), true)
  | Some e => (Some (New codes.Unknown (Error e)), false)
  end.

(** The method [Code] of a status: the code of the [nil] status is [OK]. *)
Definition Code (s : option Status) : codes.Code :=
  match s with
  | None => codes.OK
  | Some s => code s
  end.

End status.

(** ** github.com/juju/ratelimit *)

Module ratelimit.

(** Modelled from the spec: the token bucket is the package
    github.com/juju/ratelimit, which is not under src/.  The spec (section 3)
    describes it as holding a current number of tokens out of a fixed burst
    size and refilling at a fixed rate in tokens per second, changed by each
    admission check; section 4.2 has construction reject a rate that is not
    positive and a burst below one.  The rate and the clock are rationals, in
    tokens per second and in seconds: tokens arrive one at a time, at the
    instants [k / rate] after [startTime]. *)
Record Bucket := mkBucket {
  startTime : Q;
  capacity : Z;
  rate : Q;
  availableTokens : Z;
  latestTick : Z
}.

(** Modelled from the spec: [NewBucketWithRate(rate, capacity)], read at the
    instant [now]; [None] stands for the rejected construction.  The bucket
    starts full. *)
Definition NewBucketWithRate (now : Q) (rate : Q) (capacity : Z) : option Bucket :=
  if negb (Qle_bool rate 0) && (1 <=? capacity)
  then Some {| startTime := now;
               capacity := capacity;
               rate := rate;
               availableTokens := capacity;
               latestTick := 0 |}
  else None.

(** The number of whole tokens the fill rate has produced at [now]. *)
Definition currentTick (tb : Bucket) (now : Q) : Z :=
  Qfloor ((now - startTime tb) * rate tb).

(** Refill up to [tick]: a full bucket only records the tick; otherwise the
    tokens produced since [latestTick] are added, up to the capacity. *)
Definition adjustavailableTokens (tb : Bucket) (tick : Z) : Bucket :=
  if capacity tb <=? availableTokens tb
  then {| startTime := startTime tb; capacity := capacity tb; rate := rate tb;
          availableTokens := availableTokens tb;
          latestTick := tick |}
  else {| startTime := startTime tb; capacity := capacity tb; rate := rate tb;
          availableTokens :=
            Z.min (capacity tb) (availableTokens tb + (tick - latestTick tb));
          latestTick := tick |}.

(** Modelled from the spec: [TakeAvailable(count)] at the instant [now] takes
    up to [count] tokens that are there right now and never waits; it returns
    how many it took, zero when the bucket is empty. *)
Definition TakeAvailable (now : Q) (count : Z) (tb : Bucket) : Z * Bucket :=
  if count <=? 0 then (0, tb)
  else
    let tb1 := adjustavailableTokens tb (currentTick tb now) in
    if availableTokens tb1 <=? 0 then (0, tb1)
    else
      let taken := Z.min count (availableTokens tb1) in
      (taken,
       {| startTime := startTime tb1; capacity := capacity tb1; rate := rate tb1;
          availableTokens := availableTokens tb1 - taken;
          latestTick := latestTick tb1 |}).

(** The tokens in the bucket at [now], before anything is taken. *)
Definition Available (now : Q) (tb : Bucket) : Z :=
  availableTokens (adjustavailableTokens tb (currentTick tb now)).

End ratelimit.

(** ** sync *)

Module sync.

(** [sync.Once]: [done] is set once the function given to [Do] has run. *)
Record Once := mkOnce { done : bool }.

(** [once.Do(f)] on the state [s] that [f] changes: [f] runs only if no
    earlier [Do] of this [Once] has run. *)
Definition Do {S : Type} (o : Once) (f : S -> S) (s : S) : Once * S :=
  if done o then (o, s) else (mkOnce true, f s).

End sync.

(** ** go.opentelemetry.io/contrib/.../otelgrpc *)

Module otelgrpc.

(** Modelled from the spec: the constructors of the tracing interceptors
    belong to the otelgrpc package, which is not under src/.  The spec
    (section 4.1) has every construction register resources of its own, so
    each call of a constructor builds a new instance; an instance is named by
    the number of instances built before it, and [Library] counts the
    constructions. *)
Record Library := mkLibrary { unaryBuilt : nat; streamBuilt : nat }.

Inductive UnaryInstance := UnaryNo (n : nat).
Inductive StreamInstance := StreamNo (n : nat).

Definition UnaryClientInterceptor (l : Library) : UnaryInstance * Library :=
  (UnaryNo (unaryBuilt l), mkLibrary (S (unaryBuilt l)) (streamBuilt l)).

Definition StreamClientInterceptor (l : Library) : StreamInstance * Library :=
  (StreamNo (streamBuilt l), mkLibrary (unaryBuilt l) (S (streamBuilt l))).

End otelgrpc.

(** ** The surroundings of a call *)

(** The types the interceptors only pass along: [World] is everything the
    next stage and the refresher can read and change (the network, the reply
    buffer, the dynconfig), [Value] is what an [any] holds when it is not
    [nil], the others are the gRPC types of the same names. *)
Class Externals := {
  World : Type;
  Ctx : Type;
  Value : Type;
  ClientConn : Type;
  CallOption : Type;
  StreamDesc : Type;
  ClientStream : Type;
  ServerStream : Type;
  UnaryServerInfo : Type;
  StreamServerInfo : Type
}.

(** Go's [any]: [None] is [nil]. *)
Definition any `{Externals} : Type := option Value.

Module dferrors.

(** The two converters of internal/dferrors, which is not under src/: they
    are taken as they are typed, [func(err error) error]. *)
Class Converters := {
  ConvertDfErrorToGRPCError : error -> error;
  ConvertGRPCErrorToDfError : error -> error
}.

(** What the spec (section 4.3) asks of a converter: it is total and "never
    silently converts failure to success". *)
Definition keeps_failure (convert : error -> error) : Prop :=
  forall e : error_value, convert (Some e) <> None.

End dferrors.

(** ** Calls with effects *)

(** What a run leaves behind: the world, and one entry per call of the next
    stage or of the refresher, oldest first. *)
Inductive event : Type :=
| NextStage
| RefreshCall.

Record Run `{Externals} := mkRun { world : World; trace : list event }.

Definition M `{Externals} (A : Type) : Type := Run -> A * Run.

Definition ret `{Externals} {A : Type} (a : A) : M A := fun s => (a, s).

Definition bind `{Externals} {A B : Type} (m : M A) (k : A -> M B) : M B :=
  fun s => let (a, s1) := m s in k a s1.

Declare Scope run_scope.
Delimit Scope run_scope with run.
Notation "x <- m ;; k" := (bind m (fun x => k))
  (at level 61, m at next level, right associativity) : run_scope.
Notation "m ;; k" := (bind m (fun _ => k))
  (at level 61, right associativity) : run_scope.

(** Calling a function of the world, with the call recorded as [ev]. *)
Definition call `{Externals} {A : Type} (ev : event) (f : World -> A * World) : M A :=
  fun s => let (a, w) := f (world s) in (a, {| world := w; trace := trace s ++ [ev] |}).

Definition event_eqb (e1 e2 : event) : bool :=
  match e1, e2 with
  | NextStage, NextStage => true
  | RefreshCall, RefreshCall => true
  | _, _ => false
  end.

(** How many times [ev] occurs in a trace. *)
Definition count (ev : event) (t : list event) : nat :=
  List.length (filter (event_eqb ev) t).

Module grpc.

Section Types.
Context `{Externals}.

Definition UnaryInvoker : Type :=
  Ctx -> string -> any -> any -> ClientConn -> list CallOption -> World -> error * World.

Definition Streamer : Type :=
  Ctx -> StreamDesc -> ClientConn -> string -> list CallOption ->
  World -> (option ClientStream * error) * World.

Definition UnaryHandler : Type := Ctx -> any -> World -> (any * error) * World.

Definition StreamHandler : Type := any -> ServerStream -> World -> error * World.

End Types.

End grpc.

(** ** package rpc *)

Module rpc.

(** *** The tracing interceptors, built once *)

(** The package-level variables [otelUnaryInterceptor],
    [otelStreamInterceptor] and [interceptorsInitialized], with the state of
    the otelgrpc library beside them. *)
Record Package := mkPackage {
  otelUnaryInterceptor : option otelgrpc.UnaryInstance;
  otelStreamInterceptor : option otelgrpc.StreamInstance;
  interceptorsInitialized : sync.Once;
  otel : otelgrpc.Library
}.

(** The package when the process starts: both variables are [nil] and the
    [Once] has not run. *)
Definition start : Package :=
  mkPackage None None (sync.mkOnce false) (otelgrpc.mkLibrary 0 0).

(** The function literal handed to [interceptorsInitialized.Do]. *)
Definition initOTELInterceptors (p : Package) : Package :=
  let (u, l1) := otelgrpc.UnaryClientInterceptor (otel p) in
  let (s, l2) := otelgrpc.StreamClientInterceptor l1 in
  mkPackage (Some u) (Some s) (interceptorsInitialized p) l2.

Definition ensureOTELInterceptorInitialized (p : Package) : Package :=
  let (o, p1) := sync.Do (interceptorsInitialized p) initOTELInterceptors p in
  mkPackage (otelUnaryInterceptor p1) (otelStreamInterceptor p1) o (otel p1).

Definition OTELUnaryClientInterceptor (p : Package)
  : option otelgrpc.UnaryInstance * Package :=
  let p1 := ensureOTELInterceptorInitialized p in
  (otelUnaryInterceptor p1, p1).

Definition OTELStreamClientInterceptor (p : Package)
  : option otelgrpc.StreamInstance * Package :=
  let p1 := ensureOTELInterceptorInitialized p in
  (otelStreamInterceptor p1, p1).

(** A call of one of the two getters, and what it returned. *)
Inductive getter : Type :=
| GetUnary
| GetStream.

Inductive got : Type :=
| GotUnary (i : option otelgrpc.UnaryInstance)
| GotStream (i : option otelgrpc.StreamInstance).

Definition get (g : getter) (p : Package) : got * Package :=
  match g with
  | GetUnary => let (i, p1) := OTELUnaryClientInterceptor p in (GotUnary i, p1)
  | GetStream => let (i, p1) := OTELStreamClientInterceptor p in (GotStream i, p1)
  end.

(** The getters called one after the other. *)
Fixpoint gets (gs : list getter) (p : Package) : list got * Package :=
  match gs with
  | [] => ([], p)
  | g :: gs' =>
      let (r, p1) := get g p in
      let (rs, p2) := gets gs' p1 in
      (r :: rs, p2)
  end.

(** Getters called from several goroutines.  A goroutine in a getter is
    about to call [ensureOTELInterceptorInitialized], has returned from it and
    is about to read the variable, or has returned what it read.  A call of
    [Do] is one step: no [Do] returns before the one run of the function has
    returned. *)
Inductive goroutine : Type :=
| Entering (g : getter)
| Ensured (g : getter)
| Returned (g : getter) (r : got).

Definition step (t : goroutine) (p : Package) : goroutine * Package :=
  match t with
  | Entering g => (Ensured g, ensureOTELInterceptorInitialized p)
  | Ensured GetUnary => (Returned GetUnary (GotUnary (otelUnaryInterceptor p)), p)
  | Ensured GetStream => (Returned GetStream (GotStream (otelStreamInterceptor p)), p)
  | Returned g r => (Returned g r, p)
  end.

(** Goroutine number [i] takes its next step; a number past the end of the
    list moves nothing. *)
Fixpoint step_nth (i : nat) (ts : list goroutine) (p : Package)
  : list goroutine * Package :=
  match ts, i with
  | [], _ => ([], p)
  | t :: ts', O => let (t1, p1) := step t p in (t1 :: ts', p1)
  | t :: ts', S j => let (ts1, p1) := step_nth j ts' p in (t :: ts1, p1)
  end.

(** The goroutines run in the order [sched] gives. *)
Fixpoint interleave (sched : list nat) (ts : list goroutine) (p : Package)
  : list goroutine * Package :=
  match sched with
  | [] => (ts, p)
  | i :: sched' => let (ts1, p1) := step_nth i ts p in interleave sched' ts1 p1
  end.

(** *** The rate limiter *)

Record RateLimiterInterceptor := mkRateLimiterInterceptor {
  tokenBucket : ratelimit.Bucket
}.

(** [NewRateLimiterInterceptor(qps, burst)], called at the instant [now]:
    both arguments go to [ratelimit.NewBucketWithRate] as they are, and the
    constructor fails exactly when that one does. *)
Definition NewRateLimiterInterceptor (now : Q) (qps : Q) (burst : Z)
  : option RateLimiterInterceptor :=
  match ratelimit.NewBucketWithRate now qps burst with
  | Some tb => Some (mkRateLimiterInterceptor tb)
  | None => None
  end.

(** [r.Limit()], called at the instant [now]: [true] when
    [TakeAvailable(1)] took nothing. *)
Definition Limit (now : Q) (r : RateLimiterInterceptor)
  : bool * RateLimiterInterceptor :=
  let (taken, tb) := ratelimit.TakeAvailable now 1 (tokenBucket r) in
  if taken =? 0
  then (true, mkRateLimiterInterceptor tb)
  else (false, mkRateLimiterInterceptor tb).

(** [Limit] called at each of the instants [times], in that order. *)
Fixpoint Limits (times : list Q) (r : RateLimiterInterceptor)
  : list bool * RateLimiterInterceptor :=
  match times with
  | [] => ([], r)
  | now :: times' =>
      let (b, r1) := Limit now r in
      let (bs, r2) := Limits times' r1 in
      (b :: bs, r2)
  end.

Section Interceptors.
Context `{Externals} `{dferrors.Converters}.

Local Open Scope run_scope.

(** *** The refresher interceptors *)

(** The interface [Refresher]: its one method acts on the world. *)
Record Refresher := mkRefresher { Refresh : World -> error * World }.

Definition RefresherUnaryClientInterceptor (r : Refresher)
  (ctx : Ctx) (method : string) (req reply : any) (cc : ClientConn)
  (invoker : grpc.UnaryInvoker) (opts : list CallOption) : M error :=
  err <- call NextStage (invoker ctx method req reply cc opts) ;;
  (let (s, ok) := status.FromError err in
   if ok then
     if (status.Code s =? codes.ResourceExhausted)%N
        || (status.Code s =? codes.Unavailable)%N
     then call RefreshCall (Refresh r) ;; ret tt
     else ret tt
   else ret tt) ;;
  ret err.

Definition RefresherStreamClientInterceptor (r : Refresher)
  (ctx : Ctx) (desc : StreamDesc) (cc : ClientConn) (method : string)
  (streamer : grpc.Streamer) (opts : list CallOption)
  : M (option ClientStream * error) :=
  res <- call NextStage (streamer ctx desc cc method opts) ;;
  let (clientStream, err) := res : option ClientStream * error in
  (let (s, ok) := status.FromError err in
   if ok then
     if (status.Code s =? codes.ResourceExhausted)%N
        || (status.Code s =? codes.Unavailable)%N
     then call RefreshCall (Refresh r) ;; ret tt
     else ret tt
   else ret tt) ;;
  ret (clientStream, err).

(** *** The error-converting interceptors *)

Definition ConvertErrorUnaryServerInterceptor
  (ctx : Ctx) (req : any) (info : UnaryServerInfo) (handler : grpc.UnaryHandler)
  : M (any * error) :=
  res <- call NextStage (handler ctx req) ;;
  let (h, err) := res : any * error in
  match err with
  | Some _ => ret (h, dferrors.ConvertDfErrorToGRPCError err)
  | None => ret (h, None)
  end.

Definition ConvertErrorStreamServerInterceptor
  (srv : any) (ss : ServerStream) (info : StreamServerInfo)
  (handler : grpc.StreamHandler) : M error :=
  err <- call NextStage (handler srv ss) ;;
  match err with
  | Some _ => ret (dferrors.ConvertDfErrorToGRPCError err)
  | None => ret None
  end.

Definition ConvertErrorUnaryClientInterceptor
  (ctx : Ctx) (method : string) (req reply : any) (cc : ClientConn)
  (invoker : grpc.UnaryInvoker) (opts : list CallOption) : M error :=
  err <- call NextStage (invoker ctx method req reply cc opts) ;;
  match err with
  | Some _ => ret (dferrors.ConvertGRPCErrorToDfError err)
  | None => ret None
  end.

Definition ConvertErrorStreamClientInterceptor
  (ctx : Ctx) (desc : StreamDesc) (cc : ClientConn) (method : string)
  (streamer : grpc.Streamer) (opts : list CallOption)
  : M (option ClientStream * error) :=
  res <- call NextStage (streamer ctx desc cc method opts) ;;
  let (s, err) := res : option ClientStream * error in
  match err with
  | Some _ => ret (None, dferrors.ConvertGRPCErrorToDfError err)
  | None => ret (s, None)
  end.

End Interceptors.

End rpc.

(** ** The wrapper around a rate-limited call *)

Module middleware.

Section Wrapper.
Context `{Externals}.

(** Modelled from the spec: the spec's admission test [TryAdmit] over the
    limiter of package rpc.  It consumes through [rpc.Limit], whose answer
    says whether the request is to be limited, and admits when it is not. *)
Definition TryAdmit (now : Q) (r : rpc.RateLimiterInterceptor)
  : bool * rpc.RateLimiterInterceptor :=
  let (limited, r1) := rpc.Limit now r in (negb limited, r1).

(** The failure of a call that was not let through. *)
Definition exhausted : error :=
  Some (StatusError codes.ResourceExhausted "resource exhausted").

(** Modelled from the spec: the interceptor that puts the limiter around a
    call is not under src/ (package rpc only supplies the limiter).  Spec
    section 4.2: "if [TryAdmit()] is [false], the call must short-circuit with
    a 'resource exhausted' failure without invoking the next stage; otherwise
    it proceeds normally and the result is passed through unmodified."  The
    limiter afterwards is returned beside the run of the call. *)
Definition UnaryServerInterceptor (now : Q) (limiter : rpc.RateLimiterInterceptor)
  (ctx : Ctx) (req : any) (info : UnaryServerInfo) (handler : grpc.UnaryHandler)
  : M (any * error) * rpc.RateLimiterInterceptor :=
  let (ok, limiter1) := TryAdmit now limiter in
  (if ok then call NextStage (handler ctx req) else ret (None, exhausted),
   limiter1).

End Wrapper.

End middleware.

(** ** The words of the properties *)

Module props.
Import ratelimit rpc.

(** The bucket is up to date at [now] and holds no more than its capacity. *)
Definition settled (now : Q) (tb : Bucket) : Prop :=
  latestTick tb = currentTick tb now /\ availableTokens tb <= capacity tb.

(** Once a getter has run, the package holds the first instance of each kind
    and the [Once] is done. *)
Definition initialized (p : Package) : Prop :=
  otelUnaryInterceptor p = Some (otelgrpc.UnaryNo 0) /\
  otelStreamInterceptor p = Some (otelgrpc.StreamNo 0) /\
  sync.done (interceptorsInitialized p) = true /\
  otel p = otelgrpc.mkLibrary 1 1.

(** What a getter returns on an initialized package. *)
Definition first_instance (g : getter) : got :=
  match g with
  | GetUnary => GotUnary (Some (otelgrpc.UnaryNo 0))
  | GetStream => GotStream (Some (otelgrpc.StreamNo 0))
  end.

(** A goroutine that has returned holds the first instance of its kind. *)
Definition returned_first (t : goroutine) : Prop :=
  match t with
  | Returned g r => r = first_instance g
  | _ => True
  end.

(** No goroutine has gone past [ensureOTELInterceptorInitialized] yet. *)
Definition entering (t : goroutine) : Prop :=
  match t with
  | Entering _ => True
  | _ => False
  end.

(** Between the goroutines, either nothing has happened yet, or the package
    is initialized and every goroutine that returned holds the first
    instance. *)
Definition once_invariant (ts : list goroutine) (p : Package) : Prop :=
  (p = start /\ Forall entering ts) \/
  (initialized p /\ Forall returned_first ts).

Section Calls.
Context `{Externals}.

(** The error carries the wire status resource-exhausted or unavailable. *)
Definition refresh_status (err : error) : bool :=
  match err with
  | Some (StatusError c _) =>
      (c =? codes.ResourceExhausted)%N || (c =? codes.Unavailable)%N
  | _ => false
  end.

(** The run after the next stage left the world [w] and the error [err]:
    one call of [Refresh] when the error asks for it, nothing otherwise. *)
Definition after_refresh (r : Refresher) (err : error) (s : Run) : Run :=
  if refresh_status err
  then {| world := snd (Refresh r (world s)); trace := trace s ++ [RefreshCall] |}
  else s.

(** The call failed. *)
Definition failed (err : error) : bool :=
  match err with
  | Some _ => true
  | None => false
  end.

(** The error after conversion: a failure is converted, success stays. *)
Definition converted (convert : error -> error) (err : error) : error :=
  if failed err then convert err else None.

End Calls.

End props.

(** ** Values used in the examples *)

Module example.

(** A limiter of 10 requests per second and burst 3, as built at instant 0. *)
Definition limiter : rpc.RateLimiterInterceptor :=
  rpc.mkRateLimiterInterceptor (ratelimit.mkBucket 0 3 (10 # 1) 3 0).

(** A world that counts what happened to it; replies are strings and a
    stream handle is a number. *)
Definition externals : Externals := {|
  World := nat;
  Ctx := unit;
  Value := string;
  ClientConn := unit;
  CallOption := unit;
  StreamDesc := unit;
  ClientStream := nat;
  ServerStream := unit;
  UnaryServerInfo := unit;
  StreamServerInfo := unit
|}.

(** Sample converters, for the examples only (the converters of
    internal/dferrors are not under src/): a [DfError] becomes a status of
    code [Internal] and a status becomes a [DfError]; every other error is
    returned as it is. *)
Definition converters : dferrors.Converters := {|
  dferrors.ConvertDfErrorToGRPCError := fun err =>
    match err with
    | Some (DfError _ m) => Some (StatusError codes.Internal m)
    | _ => err
    end;
  dferrors.ConvertGRPCErrorToDfError := fun err =>
    match err with
    | Some (StatusError c m) => Some (DfError (Z.of_N c) m)
    | _ => err
    end
|}.

#[local] Existing Instance externals.
#[local] Existing Instance converters.

(** The run a call starts from. *)
Definition run0 : Run := {| world := 0%nat; trace := [] |}.

(** A handler that fails with a domain error and still returns a reply. *)
Definition failing_handler : grpc.UnaryHandler :=
  fun _ _ w => ((Some "partial reply"%string, Some (DfError 4 "piece not found")), S w).

(** A handler that succeeds. *)
Definition echo_handler : grpc.UnaryHandler :=
  fun _ req w => ((req, None), S w).

Definition failing_stream_handler : grpc.StreamHandler :=
  fun _ _ w => (Some (DfError 4 "piece not found"), S w).

(** An invoker that fails with the status [code]. *)
Definition status_invoker (code : codes.Code) : grpc.UnaryInvoker :=
  fun _ _ _ _ _ _ w => (Some (StatusError code "call failed"), S w).

(** An invoker that fails with a domain error, and one that succeeds. *)
Definition domain_invoker : grpc.UnaryInvoker :=
  fun _ _ _ _ _ _ w => (Some (DfError 4 "piece not found"), S w).

Definition ok_invoker : grpc.UnaryInvoker :=
  fun _ _ _ _ _ _ w => (None, S w).

(** A streamer that fails and returns a handle beside its error. *)
Definition failing_streamer : grpc.Streamer :=
  fun _ _ _ _ _ w =>
    ((Some 1%nat, Some (StatusError codes.ResourceExhausted "too many streams")), S w).

(** A streamer and a stream handler that succeed. *)
Definition ok_streamer : grpc.Streamer :=
  fun _ _ _ _ _ w => ((Some 1%nat, None), S w).

Definition ok_stream_handler : grpc.StreamHandler :=
  fun _ _ w => (None, S w).

(** A refresher that succeeds and one that fails. *)
Definition good_refresher : rpc.Refresher :=
  rpc.mkRefresher (fun w => (None, (w + 100)%nat)).

Definition bad_refresher : rpc.Refresher :=
  rpc.mkRefresher (fun w => (Some (PlainError "refresh failed"), w)).

End example.

(** ** One interceptor as the next stage of another *)

Module chain.

Section Nesting.
Context `{Externals}.

(** The surroundings of the stage one step further out: its world is the
    whole run of the stage inside (the world and the calls made so far), the
    other types are the same.  With it an interceptor of package rpc, given
    its own next stage, is itself an invoker or a streamer for the
    interceptor around it. *)
Definition outer : Externals := {|
  World := Run;
  Ctx := Ctx;
  Value := Value;
  ClientConn := ClientConn;
  CallOption := CallOption;
  StreamDesc := StreamDesc;
  ClientStream := ClientStream;
  ServerStream := ServerStream;
  UnaryServerInfo := UnaryServerInfo;
  StreamServerInfo := StreamServerInfo
|}.

(** The same refresher, seen from the stage further out: it changes the
    world inside the run and leaves the record of calls alone. *)
Definition outer_refresher (r : rpc.Refresher) : @rpc.Refresher outer :=
  @rpc.mkRefresher outer
    (fun s : Run =>
       let (err, w) := rpc.Refresh r (world s) in
       (err, {| world := w; trace := trace s |})).

End Nesting.

Section Client.
Context {E : Externals} {C : dferrors.Converters}.

(** [ConvertErrorUnaryClientInterceptor] with
    [RefresherUnaryClientInterceptor(r)] as its invoker, and that one with
    [invoker] as its own. *)
Definition convert_around_refresher (r : rpc.Refresher)
  (ctx : Ctx) (method : string) (req reply : any) (cc : ClientConn)
  (invoker : grpc.UnaryInvoker) (opts : list CallOption) : @M outer error :=
  @rpc.ConvertErrorUnaryClientInterceptor outer C ctx method req reply cc
    (fun ctx1 method1 req1 reply1 cc1 opts1 =>
       @rpc.RefresherUnaryClientInterceptor E r ctx1 method1 req1 reply1 cc1 invoker opts1)
    opts.

(** [RefresherUnaryClientInterceptor(r)] with
    [ConvertErrorUnaryClientInterceptor] as its invoker, and that one with
    [invoker] as its own. *)
Definition refresher_around_convert (r : rpc.Refresher)
  (ctx : Ctx) (method : string) (req reply : any) (cc : ClientConn)
  (invoker : grpc.UnaryInvoker) (opts : list CallOption) : @M outer error :=
  @rpc.RefresherUnaryClientInterceptor outer (outer_refresher r)
    ctx method req reply cc
    (fun ctx1 method1 req1 reply1 cc1 opts1 =>
       @rpc.ConvertErrorUnaryClientInterceptor E C ctx1 method1 req1 reply1 cc1 invoker opts1)
    opts.

End Client.

End chain.

(** ** More values for the examples *)

Module example_more.

(** Converters that agree with the sample converters on every error and
    would turn [nil] into an error. *)
Definition eager_converters : dferrors.Converters := {|
  dferrors.ConvertDfErrorToGRPCError := fun err =>
    match err with
    | Some (DfError _ m) => Some (StatusError codes.Internal m)
    | Some e => Some e
    | None => Some (PlainError "nil converted")
    end;
  dferrors.ConvertGRPCErrorToDfError := fun err =>
    match err with
    | Some (StatusError c m) => Some (DfError (Z.of_N c) m)
    | Some e => Some e
    | None => Some (PlainError "nil converted")
    end
|}.

(** A package whose [Once] is done although nothing was built: no run of
    the getters reaches it. *)
Definition done_empty : rpc.Package :=
  rpc.mkPackage None None (sync.mkOnce true) (otelgrpc.mkLibrary 0 0).

End example_more.

(** * Properties *)

(** ** The token bucket *)

Module ratelimit_facts.
Import ratelimit.

Lemma Qfloor_succ (x : Q) : Qfloor (x + 1) = Qfloor x + 1.
Proof.
  assert (Hlo : (inject_Z (Qfloor x) <= x)%Q) by apply Qfloor_le.
  assert (Hhi : (x < inject_Z (Qfloor x + 1))%Q) by apply Qlt_floor.
  apply Z.le_antisymm.
  - apply Z.lt_succ_r. rewrite Zlt_Qlt.
    apply Qle_lt_trans with (y := (x + 1)%Q); [apply Qfloor_le|].
    unfold Z.succ. rewrite (inject_Z_plus (Qfloor x + 1) 1).
    apply Qplus_lt_l. exact Hhi.
  - rewrite <- (Qfloor_Z (Qfloor x + 1)).
    apply Qfloor_resp_le. rewrite inject_Z_plus.
    apply Qplus_le_l. exact Hlo.
Qed.

(** One token arrives in [1 / rate] seconds. *)
Lemma currentTick_after_interval (tb : Bucket) (now : Q) :
  (0 < rate tb)%Q ->
  currentTick tb (now + 1 / rate tb) = currentTick tb now + 1.
Proof.
  intros Hpos. unfold currentTick.
  rewrite <- Qfloor_succ. apply Qfloor_comp.
  field. intros Hz. rewrite Hz in Hpos. discriminate.
Qed.

End ratelimit_facts.

(** ** The rate limiter *)

Module limiter_facts.
Import ratelimit rpc props.

Lemma Limits_app (l1 l2 : list Q) (r : RateLimiterInterceptor) :
  Limits (l1 ++ l2) r =
  (fst (Limits l1 r) ++ fst (Limits l2 (snd (Limits l1 r))),
   snd (Limits l2 (snd (Limits l1 r)))).
Proof.
  revert r. induction l1 as [|t l1 IH]; intros r; simpl.
  - destruct (Limits l2 r); reflexivity.
  - destruct (Limit t r) as [b r1]. rewrite IH.
    destruct (Limits l1 r1) as [bs r2]. simpl. reflexivity.
Qed.

(** [Limit] in one equation: refill, then take a token if there is one. *)
Lemma Limit_unfold (now : Q) (r : RateLimiterInterceptor) :
  Limit now r =
  let tb1 := adjustavailableTokens (tokenBucket r) (currentTick (tokenBucket r) now) in
  if 0 <? availableTokens tb1
  then (false,
        mkRateLimiterInterceptor
          (mkBucket (startTime tb1) (capacity tb1) (rate tb1)
             (availableTokens tb1 - 1) (latestTick tb1)))
  else (true, mkRateLimiterInterceptor tb1).
Proof.
  unfold Limit, TakeAvailable. cbv zeta.
  change (1 <=? 0) with false. cbv iota.
  set (tb1 := adjustavailableTokens _ _).
  destruct (Z.leb_spec (availableTokens tb1) 0) as [Hle|Hgt];
    destruct (Z.ltb_spec 0 (availableTokens tb1)) as [Hlt|Hge]; try lia.
  - reflexivity.
  - rewrite Z.min_l by lia. reflexivity.
Qed.

Lemma adjust_full (tb : Bucket) (tick : Z) :
  capacity tb <= availableTokens tb ->
  adjustavailableTokens tb tick =
  mkBucket (startTime tb) (capacity tb) (rate tb) (availableTokens tb) tick.
Proof.
  intros Hfull. unfold adjustavailableTokens.
  destruct (Z.leb_spec (capacity tb) (availableTokens tb)); [reflexivity|lia].
Qed.

Lemma adjust_below (tb : Bucket) (tick : Z) :
  latestTick tb <= tick ->
  availableTokens tb + (tick - latestTick tb) <= capacity tb ->
  adjustavailableTokens tb tick =
  mkBucket (startTime tb) (capacity tb) (rate tb)
    (availableTokens tb + (tick - latestTick tb)) tick.
Proof.
  intros Htick Hle. unfold adjustavailableTokens.
  destruct (Z.leb_spec (capacity tb) (availableTokens tb)) as [Hfull|Hnot].
  - f_equal. lia.
  - rewrite Z.min_r by lia. reflexivity.
Qed.

(** A full bucket gives one token and records the tick. *)
Lemma Limit_full (now : Q) (tb : Bucket) :
  availableTokens tb = capacity tb -> 1 <= capacity tb ->
  Limit now (mkRateLimiterInterceptor tb) =
  (false,
   mkRateLimiterInterceptor
     (mkBucket (startTime tb) (capacity tb) (rate tb) (capacity tb - 1)
        (currentTick tb now))).
Proof.
  intros Hfull Hcap. rewrite Limit_unfold. cbn [tokenBucket]. cbv zeta.
  rewrite adjust_full by lia. cbn [availableTokens startTime capacity rate latestTick].
  destruct (Z.ltb_spec 0 (availableTokens tb)); [|lia].
  rewrite Hfull. reflexivity.
Qed.

(** An up-to-date bucket with a token gives it and is otherwise unchanged. *)
Lemma Limit_settled_token (now : Q) (tb : Bucket) :
  settled now tb -> 0 < availableTokens tb ->
  Limit now (mkRateLimiterInterceptor tb) =
  (false,
   mkRateLimiterInterceptor
     (mkBucket (startTime tb) (capacity tb) (rate tb) (availableTokens tb - 1)
        (latestTick tb))).
Proof.
  intros [Htick Hle] Hpos. rewrite Limit_unfold. cbn [tokenBucket]. cbv zeta.
  rewrite <- Htick. rewrite adjust_below by lia.
  cbn [availableTokens startTime capacity rate latestTick].
  replace (availableTokens tb + (latestTick tb - latestTick tb))
    with (availableTokens tb) by lia.
  destruct (Z.ltb_spec 0 (availableTokens tb)); [reflexivity|lia].
Qed.

(** An up-to-date empty bucket gives nothing and is unchanged. *)
Lemma Limit_settled_empty (now : Q) (tb : Bucket) :
  settled now tb -> availableTokens tb = 0 -> 1 <= capacity tb ->
  Limit now (mkRateLimiterInterceptor tb) =
  (true,
   mkRateLimiterInterceptor
     (mkBucket (startTime tb) (capacity tb) (rate tb) 0 (latestTick tb))).
Proof.
  intros [Htick Hle] Hzero Hcap. rewrite Limit_unfold. cbn [tokenBucket]. cbv zeta.
  rewrite <- Htick. rewrite adjust_below by lia.
  cbn [availableTokens startTime capacity rate latestTick].
  replace (availableTokens tb + (latestTick tb - latestTick tb)) with 0 by lia.
  reflexivity.
Qed.

(** An empty bucket one tick behind [now] gives the one token that arrived. *)
Lemma Limit_one_tick_later (now : Q) (tb : Bucket) :
  currentTick tb now = latestTick tb + 1 ->
  availableTokens tb = 0 -> 1 <= capacity tb ->
  Limit now (mkRateLimiterInterceptor tb) =
  (false,
   mkRateLimiterInterceptor
     (mkBucket (startTime tb) (capacity tb) (rate tb) 0 (latestTick tb + 1))).
Proof.
  intros Htick Hzero Hcap. rewrite Limit_unfold. cbn [tokenBucket]. cbv zeta.
  rewrite Htick. rewrite adjust_below by lia.
  cbn [availableTokens startTime capacity rate latestTick].
  replace (availableTokens tb + (latestTick tb + 1 - latestTick tb)) with 1 by lia.
  reflexivity.
Qed.

(** [n] calls at one instant empty an up-to-date bucket of [n] tokens: none
    of them is limited. *)
Lemma Limits_drain (now : Q) (n : nat) :
  forall tb : Bucket,
  settled now tb -> availableTokens tb = Z.of_nat n ->
  Limits (repeat now n) (mkRateLimiterInterceptor tb) =
  (repeat false n,
   mkRateLimiterInterceptor
     (mkBucket (startTime tb) (capacity tb) (rate tb) 0 (latestTick tb))).
Proof.
  induction n as [|n IH]; intros tb Hs Hn.
  - simpl. destruct tb as [s c q a l]. simpl in *. subst a. reflexivity.
  - cbn [repeat Limits].
    rewrite (Limit_settled_token now tb Hs) by lia.
    rewrite IH.
    + reflexivity.
    + destruct Hs as [Htick Hle]. split; simpl.
      * exact Htick.
      * lia.
    + simpl. lia.
Qed.

End limiter_facts.

Module limiter_claims.
Import ratelimit rpc props limiter_facts.

Lemma NewRateLimiterInterceptor_Some (t0 qps : Q) (burst : Z) (r : RateLimiterInterceptor) :
  NewRateLimiterInterceptor t0 qps burst = Some r ->
  (0 < qps)%Q /\ 1 <= burst /\
  r = mkRateLimiterInterceptor (mkBucket t0 burst qps burst 0).
Proof.
  unfold NewRateLimiterInterceptor, NewBucketWithRate.
  destruct (Qle_bool qps 0) eqn:Hq; simpl; [discriminate|].
  destruct (Z.leb_spec 1 burst) as [Hb|Hb]; [|discriminate].
  intros Heq. injection Heq as <-. repeat split; [|exact Hb].
  apply Qnot_le_lt. intros Hle. apply Qle_bool_iff in Hle. congruence.
Qed.

(** C1, as amended: [Limit] takes exactly one token from the bucket when
    the bucket holds one at that instant and then answers [false] (the
    request is not limited); it takes nothing and answers [true] (the request
    is limited) when the bucket holds none.  Its answer is [true] exactly
    when [TakeAvailable(1)] took nothing.  This holds for every state of the
    bucket and every instant. *)
Theorem Limit_false_iff_token_taken (now : Q) (r : RateLimiterInterceptor) :
  let tokens := Available now (tokenBucket r) in
  fst (Limit now r) = (fst (TakeAvailable now 1 (tokenBucket r)) =? 0) /\
  fst (Limit now r) = negb (0 <? tokens) /\
  availableTokens (tokenBucket (snd (Limit now r))) =
    (if 0 <? tokens then tokens - 1 else tokens).
Proof.
  cbv zeta. split.
  - unfold Limit. destruct (TakeAvailable now 1 (tokenBucket r)) as [taken tb].
    cbn [fst]. destruct (taken =? 0); reflexivity.
  - rewrite Limit_unfold. cbv zeta. unfold Available.
    destruct (0 <? _); split; reflexivity.
Qed.

(** C1, as the claim words it, fails: the limiter of the examples holds three
    tokens at instant 0 and [TakeAvailable(1)] takes one of them, yet [Limit]
    answers [false] there, not [true]. *)
Lemma Limit_true_on_token_counterexample :
  Available 0 (tokenBucket example.limiter) = 3 /\
  fst (TakeAvailable 0 1 (tokenBucket example.limiter)) = 1 /\
  fst (Limit 0 example.limiter) = false.
Proof. repeat split. Qed.

(** C2: whatever the two arguments are, the constructor yields a limiter
    only for a positive rate and a burst of at least one, and rejects every
    other pair; a rate of 0 is rejected whatever the burst. *)
Theorem NewRateLimiterInterceptor_validates (now qps : Q) (burst : Z) :
  (NewRateLimiterInterceptor now qps burst = None <->
   ~ ((0 < qps)%Q /\ 1 <= burst)) /\
  NewRateLimiterInterceptor now 0 burst = None.
Proof.
  split; [|reflexivity].
  unfold NewRateLimiterInterceptor, NewBucketWithRate.
  destruct (Qle_bool qps 0) eqn:Hq; simpl.
  - split; [|reflexivity]. intros _ [Hpos _].
    apply Qle_bool_iff in Hq. apply (Qlt_not_le _ _ Hpos Hq).
  - destruct (Z.leb_spec 1 burst) as [Hb|Hb].
    + split; [discriminate|]. intros Hn. exfalso. apply Hn. split; [|exact Hb].
      apply Qnot_le_lt. intros Hle. apply Qle_bool_iff in Hle. congruence.
    + split; [|reflexivity]. intros _ [_ Hb']. lia.
Qed.

(** C8: on a limiter built with burst [burst] and rate [qps], [burst] calls
    of [Limit] at one instant are all let through (answer [false]) and the
    next one at that instant is limited (answer [true]); [1 / qps] seconds
    later one call is let through and the one after it is limited again. *)
Theorem Limits_burst_then_one_per_interval
  (t0 qps : Q) (burst : Z) (r : RateLimiterInterceptor) (now : Q) :
  NewRateLimiterInterceptor t0 qps burst = Some r ->
  fst (Limits (repeat now (Z.to_nat burst) ++ [now]
               ++ [(now + 1 / qps)%Q; (now + 1 / qps)%Q]) r)
  = repeat false (Z.to_nat burst) ++ [true] ++ [false; true].
Proof.
  intros Hnew.
  destruct (NewRateLimiterInterceptor_Some _ _ _ _ Hnew) as (Hq & Hb & ->).
  destruct (Z.to_nat burst) as [|n] eqn:Hn; [lia|].
  assert (Hburst : burst - 1 = Z.of_nat n) by lia.
  set (tb0 := mkBucket t0 burst qps burst 0).
  set (tick := currentTick tb0 now).
  rewrite Limits_app. cbn [repeat Limits].
  rewrite (Limit_full now tb0) by (cbn; lia).
  cbn [startTime capacity rate tb0]. fold tick.
  set (tb1 := mkBucket t0 burst qps (burst - 1) tick).
  assert (Hs1 : settled now tb1) by (split; cbn; [reflexivity|lia]).
  rewrite (Limits_drain now n tb1 Hs1) by exact Hburst.
  cbn [fst snd startTime capacity rate latestTick tb1 app].
  set (tb2 := mkBucket t0 burst qps 0 tick).
  assert (Hs2 : settled now tb2) by (split; cbn; [reflexivity|lia]).
  f_equal. f_equal. cbn [Limits].
  rewrite (Limit_settled_empty now tb2 Hs2) by (cbn; lia).
  cbn [startTime capacity rate latestTick tb2].
  fold tb2.
  assert (Htick : currentTick tb2 (now + 1 / qps) = latestTick tb2 + 1).
  { change qps with (rate tb2) at 1. rewrite ratelimit_facts.currentTick_after_interval.
    - reflexivity.
    - exact Hq. }
  rewrite (Limit_one_tick_later _ tb2 Htick) by (cbn; lia).
  cbn [startTime capacity rate latestTick tb2].
  set (tb3 := mkBucket t0 burst qps 0 (tick + 1)).
  assert (Hs3 : settled (now + 1 / qps) tb3).
  { split; cbn [latestTick availableTokens capacity tb3]; [|lia].
    symmetry. exact Htick. }
  rewrite (Limit_settled_empty _ tb3 Hs3) by (cbn; lia).
  reflexivity.
Qed.

(** C8 at burst 3 and 10 requests per second, all calls from instant 0. *)
Lemma Limits_burst_then_one_per_interval_witness :
  NewRateLimiterInterceptor 0 (10 # 1) 3 = Some example.limiter /\
  fst (Limits (repeat 0%Q 3 ++ [0%Q] ++ [(0 + 1 / (10 # 1))%Q; (0 + 1 / (10 # 1))%Q])
         example.limiter)
  = [false; false; false; true; false; true].
Proof.
  split.
  - reflexivity.
  - exact (Limits_burst_then_one_per_interval 0 (10 # 1) 3 example.limiter 0 eq_refl).
Defined.

End limiter_claims.

(** ** The tracing interceptors *)

Module otel_claims.
Import rpc props.

Lemma ensure_start : initialized (ensureOTELInterceptorInitialized start).
Proof. repeat split. Qed.

Lemma ensure_initialized (p : Package) :
  initialized p -> ensureOTELInterceptorInitialized p = p.
Proof.
  destruct p as [u s [d] l]. intros (Hu & Hs & Hd & Hl). simpl in *. subst.
  reflexivity.
Qed.

Lemma get_start (g : getter) :
  fst (get g start) = first_instance g /\ initialized (snd (get g start)).
Proof. destruct g; split; try reflexivity; apply ensure_start. Qed.

Lemma get_initialized (g : getter) (p : Package) :
  initialized p -> get g p = (first_instance g, p).
Proof.
  intros Hp. pose proof (ensure_initialized p Hp) as He.
  destruct Hp as (Hu & Hs & _).
  destruct g; unfold get, OTELUnaryClientInterceptor, OTELStreamClientInterceptor;
    cbv zeta; rewrite He; [rewrite Hu|rewrite Hs]; reflexivity.
Qed.

Lemma gets_initialized (gs : list getter) (p : Package) :
  initialized p -> gets gs p = (map first_instance gs, p).
Proof.
  intros Hp. induction gs as [|g gs IH]; simpl.
  - reflexivity.
  - rewrite (get_initialized g p Hp), IH. reflexivity.
Qed.

(** C7: for every sequence of calls of the two getters from the start of the
    process that is not empty, every call of [OTELUnaryClientInterceptor]
    returns one and the same instance, every call of
    [OTELStreamClientInterceptor] returns one and the same instance, and
    when the sequence is over each of the two constructors has been called
    exactly once. *)
Theorem OTEL_getters_build_once (gs : list getter) :
  gs <> [] ->
  fst (gets gs start) = map first_instance gs /\
  otel (snd (gets gs start)) = otelgrpc.mkLibrary 1 1.
Proof.
  destruct gs as [|g gs]; [congruence|]. intros _.
  cbn [gets]. destruct (get_start g) as [Hr Hp].
  destruct (get g start) as [r p1]. cbn [fst snd] in Hr, Hp.
  rewrite (gets_initialized gs p1 Hp). cbn [fst snd map]. split.
  - rewrite Hr. reflexivity.
  - apply Hp.
Qed.

(** C7 on three calls: unary, stream, unary. *)
Lemma OTEL_getters_build_once_witness :
  fst (gets [GetUnary; GetStream; GetUnary] start) =
    [GotUnary (Some (otelgrpc.UnaryNo 0));
     GotStream (Some (otelgrpc.StreamNo 0));
     GotUnary (Some (otelgrpc.UnaryNo 0))] /\
  otel (snd (gets [GetUnary; GetStream; GetUnary] start)) = otelgrpc.mkLibrary 1 1.
Proof.
  apply (OTEL_getters_build_once [GetUnary; GetStream; GetUnary]).
  discriminate.
Defined.

Lemma step_invariant (t : goroutine) (p : Package) :
  (p = start /\ entering t) \/ (initialized p /\ returned_first t) ->
  initialized (snd (step t p)) /\ returned_first (fst (step t p)).
Proof.
  intros [[-> Ht]|[Hp Ht]].
  - destruct t as [g|g|g r]; try contradiction. cbn. split; [apply ensure_start|exact I].
  - destruct t as [g|[|]|g r]; cbn [step fst snd returned_first].
    + rewrite (ensure_initialized p Hp). split; [exact Hp|exact I].
    + split; [exact Hp|]. destruct Hp as (-> & _). reflexivity.
    + split; [exact Hp|]. destruct Hp as (_ & -> & _). reflexivity.
    + split; [exact Hp|exact Ht].
Qed.

Lemma entering_returned_first (ts : list goroutine) :
  Forall entering ts -> Forall returned_first ts.
Proof.
  intros Hall. eapply Forall_impl; [|exact Hall].
  intros [g|g|g r]; cbn; intros Ht; try contradiction; exact I.
Qed.

Lemma once_invariant_cons (t : goroutine) (ts : list goroutine) (p : Package) :
  once_invariant (t :: ts) p <->
  ((p = start /\ entering t) \/ (initialized p /\ returned_first t)) /\
  once_invariant ts p.
Proof.
  unfold once_invariant. split.
  - intros [[Hp Hall]|[Hp Hall]]; inversion Hall as [|? ? Ht Hts]; split; auto.
  - intros [[[Hp Ht]|[Hp Ht]] [[Hp' Hts]|[Hp' Hts]]].
    + left. split; [exact Hp|]. constructor; assumption.
    + right. split; [exact Hp'|]. constructor; [|exact Hts].
      destruct t; cbn in Ht; try contradiction; exact I.
    + right. split; [exact Hp|]. constructor; [exact Ht|].
      apply entering_returned_first. exact Hts.
    + right. split; [exact Hp|]. constructor; assumption.
Qed.

Lemma step_keeps_initialized (t : goroutine) (p : Package) :
  initialized p -> snd (step t p) = p.
Proof.
  intros Hp. destruct t as [g|[|]|g r]; cbn [step snd]; try reflexivity.
  apply ensure_initialized. exact Hp.
Qed.

Lemma step_nth_keeps_initialized (i : nat) (ts : list goroutine) (p : Package) :
  initialized p -> snd (step_nth i ts p) = p.
Proof.
  intros Hp. revert i. induction ts as [|t ts IH]; intros i.
  - destruct i; reflexivity.
  - destruct i as [|j]; cbn [step_nth].
    + pose proof (step_keeps_initialized t p Hp) as Hs.
      destruct (step t p). exact Hs.
    + specialize (IH j). destruct (step_nth j ts p). exact IH.
Qed.

Lemma step_nth_invariant (i : nat) (ts : list goroutine) (p : Package) :
  once_invariant ts p ->
  once_invariant (fst (step_nth i ts p)) (snd (step_nth i ts p)).
Proof.
  revert i. induction ts as [|t ts IH]; intros i Hinv.
  - destruct i; exact Hinv.
  - apply once_invariant_cons in Hinv. destruct Hinv as [Ht Hts].
    destruct i as [|j]; cbn [step_nth].
    + pose proof (step_invariant t p Ht) as [Hp1 Ht1].
      destruct (step t p) as [t1 p1]. cbn [fst snd] in *.
      right. split; [exact Hp1|]. constructor; [exact Ht1|].
      destruct Hts as [[_ Hall]|[_ Hall]];
        [apply entering_returned_first|]; exact Hall.
    + specialize (IH j Hts).
      pose proof (step_nth_keeps_initialized j ts p) as Hkeep.
      destruct (step_nth j ts p) as [ts1 p1]. cbn [fst snd] in *.
      apply once_invariant_cons. split; [|exact IH].
      destruct Ht as [[Hp Ht]|[Hp Ht]].
      * destruct IH as [[Hp1 _]|[Hp1 _]].
        -- left. split; assumption.
        -- right. split; [exact Hp1|].
           destruct t; cbn in Ht; try contradiction; exact I.
      * right. rewrite (Hkeep Hp). split; assumption.
Qed.

(** X1, the getters under every interleaving: whatever getters the
    goroutines call and in whatever order their steps are taken from the
    start of the process, either no goroutine has passed
    [ensureOTELInterceptorInitialized] and the package is as it was at the
    start, or the package holds the first instance of each kind, each
    constructor has been called exactly once, and every goroutine that has
    returned holds the first instance of its kind. *)
Theorem OTEL_getters_interleaved (sched : list nat) (gs : list getter) :
  (snd (interleave sched (map Entering gs) start) = start /\
   Forall entering (fst (interleave sched (map Entering gs) start))) \/
  (initialized (snd (interleave sched (map Entering gs) start)) /\
   Forall returned_first (fst (interleave sched (map Entering gs) start))).
Proof.
  assert (Hgen : forall sched ts p, once_invariant ts p ->
            once_invariant (fst (interleave sched ts p)) (snd (interleave sched ts p))).
  { clear. induction sched as [|i sched IH]; intros ts p Hinv; cbn [interleave].
    - exact Hinv.
    - pose proof (step_nth_invariant i ts p Hinv) as Hstep.
      destruct (step_nth i ts p) as [ts1 p1]. apply IH. exact Hstep. }
  apply Hgen. left. split; [reflexivity|]. apply Forall_forall. intros t Hin.
  apply in_map_iff in Hin. destruct Hin as (g & <- & _). exact I.
Qed.

End otel_claims.

(** ** The refresher interceptors *)

Module refresher_claims.
Import rpc props.

Section Facts.
Context `{Externals}.

Lemma count_app (ev : event) (t1 t2 : list event) :
  count ev (t1 ++ t2) = (count ev t1 + count ev t2)%nat.
Proof. unfold count. rewrite filter_app, length_app. reflexivity. Qed.

(** Runs a refresher interceptor whose next stage has returned: by cases on
    the error and on the test of its code. *)
Ltac run_refresher r :=
  unfold after_refresh, refresh_status; cbn [fst snd world trace];
  match goal with
  | |- context [status.FromError ?err] =>
      destruct err as [[c m|c m|m]|];
      cbn [status.FromError status.Code status.code]; try reflexivity;
      destruct ((c =? codes.ResourceExhausted)%N || (c =? codes.Unavailable)%N);
      [|reflexivity];
      cbn [world trace];
      match goal with
      | |- context [Refresh r ?w] => destruct (Refresh r w); reflexivity
      end
  end.

Lemma RefresherUnaryClientInterceptor_run (r : Refresher)
  (ctx : Ctx) (method : string) (req reply : any) (cc : ClientConn)
  (invoker : grpc.UnaryInvoker) (opts : list CallOption) (s : Run) :
  RefresherUnaryClientInterceptor r ctx method req reply cc invoker opts s =
  (fst (invoker ctx method req reply cc opts (world s)),
   after_refresh r (fst (invoker ctx method req reply cc opts (world s)))
     {| world := snd (invoker ctx method req reply cc opts (world s));
        trace := trace s ++ [NextStage] |}).
Proof.
  unfold RefresherUnaryClientInterceptor, bind, call, ret.
  destruct (invoker ctx method req reply cc opts (world s)) as [err w].
  run_refresher r.
Qed.

Lemma RefresherStreamClientInterceptor_run (r : Refresher)
  (ctx : Ctx) (desc : StreamDesc) (cc : ClientConn) (method : string)
  (streamer : grpc.Streamer) (opts : list CallOption) (s : Run) :
  RefresherStreamClientInterceptor r ctx desc cc method streamer opts s =
  (fst (streamer ctx desc cc method opts (world s)),
   after_refresh r (snd (fst (streamer ctx desc cc method opts (world s))))
     {| world := snd (streamer ctx desc cc method opts (world s));
        trace := trace s ++ [NextStage] |}).
Proof.
  unfold RefresherStreamClientInterceptor, bind, call, ret.
  destruct (streamer ctx desc cc method opts (world s)) as [[cs err] w].
  run_refresher r.
Qed.

Lemma after_refresh_trace (r : Refresher) (err : error) (s : Run) :
  trace (after_refresh r err s) =
  trace s ++ (if refresh_status err then [RefreshCall] else []).
Proof.
  unfold after_refresh. destruct (refresh_status err); cbn [trace].
  - reflexivity.
  - rewrite app_nil_r. reflexivity.
Qed.

Lemma after_refresh_world (r : Refresher) (err : error) (s : Run) :
  world (after_refresh r err s) =
  if refresh_status err then snd (Refresh r (world s)) else world s.
Proof. unfold after_refresh. destruct (refresh_status err); reflexivity. Qed.

(** C4: through either refresher interceptor the next stage is called once;
    [Refresh] is called exactly once after it when the error of the call
    carries the status resource-exhausted or unavailable, and not at all for
    any other outcome; what the next stage returned (the error, and the stream
    handle) is returned as it is.  The world afterwards is the one the next
    stage left, changed by that one run of [Refresh] of the refresher given
    when it is called and by nothing else. *)
Theorem Refresher_interceptors_trigger_set (r : Refresher)
  (ctx : Ctx) (method : string) (req reply : any) (cc : ClientConn)
  (invoker : grpc.UnaryInvoker) (desc : StreamDesc) (streamer : grpc.Streamer)
  (opts : list CallOption) (s : Run) :
  let out := invoker ctx method req reply cc opts (world s) in
  let res := RefresherUnaryClientInterceptor r ctx method req reply cc invoker opts s in
  let sout := streamer ctx desc cc method opts (world s) in
  let sres := RefresherStreamClientInterceptor r ctx desc cc method streamer opts s in
  (fst res = fst out /\
   trace (snd res) =
     trace s ++ NextStage :: (if refresh_status (fst out) then [RefreshCall] else []) /\
   count RefreshCall (trace (snd res)) =
     (count RefreshCall (trace s) + if refresh_status (fst out) then 1 else 0)%nat /\
   world (snd res) =
     (if refresh_status (fst out) then snd (Refresh r (snd out)) else snd out)) /\
  (fst sres = fst sout /\
   trace (snd sres) =
     trace s ++ NextStage :: (if refresh_status (snd (fst sout)) then [RefreshCall] else []) /\
   count RefreshCall (trace (snd sres)) =
     (count RefreshCall (trace s) + if refresh_status (snd (fst sout)) then 1 else 0)%nat /\
   world (snd sres) =
     (if refresh_status (snd (fst sout)) then snd (Refresh r (snd sout)) else snd sout)).
Proof.
  cbv zeta.
  rewrite RefresherUnaryClientInterceptor_run, RefresherStreamClientInterceptor_run.
  cbn [fst snd]. rewrite !after_refresh_trace, !after_refresh_world. cbn [trace world].
  rewrite <- !app_assoc. cbn [app]. rewrite !count_app.
  split; (split; [reflexivity|split; [reflexivity|split; [|reflexivity]]]).
  - destruct (refresh_status (fst _)); reflexivity.
  - destruct (refresh_status (snd _)); reflexivity.
Qed.

(** C5: what a refresher interceptor returns does not depend on the
    refresher: with any two refreshers around the same next stage in the same
    run, the unary interceptors return the same error and the stream
    interceptors return the same handle and error. *)
Theorem Refresher_result_independent_of_refresher (r1 r2 : Refresher)
  (ctx : Ctx) (method : string) (req reply : any) (cc : ClientConn)
  (invoker : grpc.UnaryInvoker) (desc : StreamDesc) (streamer : grpc.Streamer)
  (opts : list CallOption) (s : Run) :
  fst (RefresherUnaryClientInterceptor r1 ctx method req reply cc invoker opts s) =
  fst (RefresherUnaryClientInterceptor r2 ctx method req reply cc invoker opts s) /\
  fst (RefresherStreamClientInterceptor r1 ctx desc cc method streamer opts s) =
  fst (RefresherStreamClientInterceptor r2 ctx desc cc method streamer opts s).
Proof.
  rewrite !RefresherUnaryClientInterceptor_run, !RefresherStreamClientInterceptor_run.
  split; reflexivity.
Qed.

End Facts.

End refresher_claims.

(** ** The error-converting interceptors *)

Module convert_claims.
Import rpc props.

Section Facts.
Context `{Externals} `{dferrors.Converters}.

Lemma converted_failed (convert : error -> error) (err : error) :
  dferrors.keeps_failure convert ->
  failed (converted convert err) = failed err.
Proof.
  intros Hkeep. destruct err as [e|]; [|reflexivity].
  unfold converted. cbn [failed]. specialize (Hkeep e).
  destruct (convert (Some e)); [reflexivity|congruence].
Qed.

Lemma ConvertErrorUnaryServerInterceptor_run
  (ctx : Ctx) (req : any) (info : UnaryServerInfo) (handler : grpc.UnaryHandler)
  (s : Run) :
  ConvertErrorUnaryServerInterceptor ctx req info handler s =
  ((fst (fst (handler ctx req (world s))),
    converted dferrors.ConvertDfErrorToGRPCError (snd (fst (handler ctx req (world s))))),
   {| world := snd (handler ctx req (world s)); trace := trace s ++ [NextStage] |}).
Proof.
  unfold ConvertErrorUnaryServerInterceptor, bind, call, ret.
  destruct (handler ctx req (world s)) as [[h [e|]] w]; reflexivity.
Qed.

Lemma ConvertErrorStreamServerInterceptor_run
  (srv : any) (ss : ServerStream) (info : StreamServerInfo)
  (handler : grpc.StreamHandler) (s : Run) :
  ConvertErrorStreamServerInterceptor srv ss info handler s =
  (converted dferrors.ConvertDfErrorToGRPCError (fst (handler srv ss (world s))),
   {| world := snd (handler srv ss (world s)); trace := trace s ++ [NextStage] |}).
Proof.
  unfold ConvertErrorStreamServerInterceptor, bind, call, ret.
  destruct (handler srv ss (world s)) as [[e|] w]; reflexivity.
Qed.

Lemma ConvertErrorUnaryClientInterceptor_run
  (ctx : Ctx) (method : string) (req reply : any) (cc : ClientConn)
  (invoker : grpc.UnaryInvoker) (opts : list CallOption) (s : Run) :
  ConvertErrorUnaryClientInterceptor ctx method req reply cc invoker opts s =
  (converted dferrors.ConvertGRPCErrorToDfError
     (fst (invoker ctx method req reply cc opts (world s))),
   {| world := snd (invoker ctx method req reply cc opts (world s));
      trace := trace s ++ [NextStage] |}).
Proof.
  unfold ConvertErrorUnaryClientInterceptor, bind, call, ret.
  destruct (invoker ctx method req reply cc opts (world s)) as [[e|] w]; reflexivity.
Qed.

Lemma ConvertErrorStreamClientInterceptor_run
  (ctx : Ctx) (desc : StreamDesc) (cc : ClientConn) (method : string)
  (streamer : grpc.Streamer) (opts : list CallOption) (s : Run) :
  ConvertErrorStreamClientInterceptor ctx desc cc method streamer opts s =
  ((if failed (snd (fst (streamer ctx desc cc method opts (world s))))
    then None
    else fst (fst (streamer ctx desc cc method opts (world s))),
    converted dferrors.ConvertGRPCErrorToDfError
      (snd (fst (streamer ctx desc cc method opts (world s))))),
   {| world := snd (streamer ctx desc cc method opts (world s));
      trace := trace s ++ [NextStage] |}).
Proof.
  unfold ConvertErrorStreamClientInterceptor, bind, call, ret.
  destruct (streamer ctx desc cc method opts (world s)) as [[cs [e|]] w]; reflexivity.
Qed.

(** C6: with converters that keep a failure a failure, each of the four
    interceptors returns the conversion of the error of the next stage when
    that stage failed, and this is again a failure; when the next stage
    succeeded it returns success, with the reply, the stream handle and the
    world the next stage left exactly as they were. *)
Theorem ConvertError_interceptors_keep_outcome
  (ctx : Ctx) (method : string) (req reply srv : any) (cc : ClientConn)
  (uinfo : UnaryServerInfo) (sinfo : StreamServerInfo) (ss : ServerStream)
  (desc : StreamDesc) (opts : list CallOption)
  (uhandler : grpc.UnaryHandler) (shandler : grpc.StreamHandler)
  (invoker : grpc.UnaryInvoker) (streamer : grpc.Streamer) (s : Run) :
  dferrors.keeps_failure dferrors.ConvertDfErrorToGRPCError ->
  dferrors.keeps_failure dferrors.ConvertGRPCErrorToDfError ->
  let uh := uhandler ctx req (world s) in
  let us := ConvertErrorUnaryServerInterceptor ctx req uinfo uhandler s in
  let sh := shandler srv ss (world s) in
  let sv := ConvertErrorStreamServerInterceptor srv ss sinfo shandler s in
  let ui := invoker ctx method req reply cc opts (world s) in
  let uc := ConvertErrorUnaryClientInterceptor ctx method req reply cc invoker opts s in
  let st := streamer ctx desc cc method opts (world s) in
  let sc := ConvertErrorStreamClientInterceptor ctx desc cc method streamer opts s in
  (snd (fst us) = converted dferrors.ConvertDfErrorToGRPCError (snd (fst uh)) /\
   failed (snd (fst us)) = failed (snd (fst uh)) /\
   (failed (snd (fst uh)) = false -> fst us = fst uh) /\
   world (snd us) = snd uh) /\
  (fst sv = converted dferrors.ConvertDfErrorToGRPCError (fst sh) /\
   failed (fst sv) = failed (fst sh) /\
   world (snd sv) = snd sh) /\
  (fst uc = converted dferrors.ConvertGRPCErrorToDfError (fst ui) /\
   failed (fst uc) = failed (fst ui) /\
   world (snd uc) = snd ui) /\
  (snd (fst sc) = converted dferrors.ConvertGRPCErrorToDfError (snd (fst st)) /\
   failed (snd (fst sc)) = failed (snd (fst st)) /\
   (failed (snd (fst st)) = false -> fst sc = fst st) /\
   world (snd sc) = snd st).
Proof.
  intros Hto Hfrom. cbv zeta.
  rewrite ConvertErrorUnaryServerInterceptor_run, ConvertErrorStreamServerInterceptor_run,
    ConvertErrorUnaryClientInterceptor_run, ConvertErrorStreamClientInterceptor_run.
  cbn [fst snd world].
  rewrite !(converted_failed _ _ Hto), !(converted_failed _ _ Hfrom).
  repeat split.
  - destruct (uhandler ctx req (world s)) as [[h [e|]] w]; cbn; [discriminate|reflexivity].
  - destruct (streamer ctx desc cc method opts (world s)) as [[cs [e|]] w]; cbn;
      [discriminate|reflexivity].
Qed.


(** C10: [ConvertErrorUnaryServerInterceptor] returns the reply of the
    handler as it is, whether the handler failed or not; only the error
    changes: it is converted when the handler failed and [nil] when it did
    not. *)
Theorem ConvertErrorUnaryServerInterceptor_keeps_reply
  (ctx : Ctx) (req : any) (info : UnaryServerInfo) (handler : grpc.UnaryHandler)
  (s : Run) :
  let out := handler ctx req (world s) in
  let res := ConvertErrorUnaryServerInterceptor ctx req info handler s in
  fst (fst res) = fst (fst out) /\
  snd (fst res) =
    match snd (fst out) with
    | Some e => dferrors.ConvertDfErrorToGRPCError (Some e)
    | None => None
    end /\
  snd res = {| world := snd out; trace := trace s ++ [NextStage] |}.
Proof.
  cbv zeta. rewrite ConvertErrorUnaryServerInterceptor_run. cbn [fst snd].
  repeat split. destruct (snd (fst (handler ctx req (world s)))); reflexivity.
Qed.

(** X2, success passes through every interceptor: when the next stage succeeds,
    each of the two refresher interceptors and of the four converting
    interceptors returns exactly what the next stage returned and leaves the
    world as the next stage left it; the next stage has been called once and
    [Refresh] has not been called. *)
Theorem interceptors_pass_success (r : Refresher)
  (ctx : Ctx) (method : string) (req reply srv : any) (cc : ClientConn)
  (uinfo : UnaryServerInfo) (sinfo : StreamServerInfo) (ss : ServerStream)
  (desc : StreamDesc) (opts : list CallOption)
  (uhandler : grpc.UnaryHandler) (shandler : grpc.StreamHandler)
  (invoker : grpc.UnaryInvoker) (streamer : grpc.Streamer) (s : Run)
  (h : any) (cs : option ClientStream) (w1 w2 w3 w4 : World) :
  invoker ctx method req reply cc opts (world s) = (None, w1) ->
  streamer ctx desc cc method opts (world s) = ((cs, None), w2) ->
  uhandler ctx req (world s) = ((h, None), w3) ->
  shandler srv ss (world s) = (None, w4) ->
  RefresherUnaryClientInterceptor r ctx method req reply cc invoker opts s
    = (None, {| world := w1; trace := trace s ++ [NextStage] |}) /\
  RefresherStreamClientInterceptor r ctx desc cc method streamer opts s
    = ((cs, None), {| world := w2; trace := trace s ++ [NextStage] |}) /\
  ConvertErrorUnaryClientInterceptor ctx method req reply cc invoker opts s
    = (None, {| world := w1; trace := trace s ++ [NextStage] |}) /\
  ConvertErrorStreamClientInterceptor ctx desc cc method streamer opts s
    = ((cs, None), {| world := w2; trace := trace s ++ [NextStage] |}) /\
  ConvertErrorUnaryServerInterceptor ctx req uinfo uhandler s
    = ((h, None), {| world := w3; trace := trace s ++ [NextStage] |}) /\
  ConvertErrorStreamServerInterceptor srv ss sinfo shandler s
    = (None, {| world := w4; trace := trace s ++ [NextStage] |}).
Proof.
  intros Hi Hs Hu Hh.
  rewrite refresher_claims.RefresherUnaryClientInterceptor_run,
    refresher_claims.RefresherStreamClientInterceptor_run,
    ConvertErrorUnaryClientInterceptor_run, ConvertErrorStreamClientInterceptor_run,
    ConvertErrorUnaryServerInterceptor_run, ConvertErrorStreamServerInterceptor_run.
  rewrite Hi, Hs, Hu, Hh. repeat split.
Qed.

End Facts.

End convert_claims.

(** ** The limiter around a call *)

Module middleware_claims.
Import rpc middleware props.

Section Facts.
Context `{Externals}.

Lemma TryAdmit_tokens (now : Q) (r : RateLimiterInterceptor) :
  fst (TryAdmit now r) = (0 <? ratelimit.Available now (tokenBucket r)) /\
  snd (TryAdmit now r) = snd (Limit now r).
Proof.
  unfold TryAdmit. rewrite limiter_facts.Limit_unfold. cbv zeta.
  unfold ratelimit.Available. destruct (0 <? _); split; reflexivity.
Qed.

(** C3: around a call, the limiter that does not let the call through
    ([TryAdmit] is [false]: the bucket holds no token) makes the call return
    the resource-exhausted failure with no reply, and the next stage is not
    called: the run is left as it was.  When [TryAdmit] is [true] the next
    stage is called once and what it returns is returned as it is. *)
Theorem UnaryServerInterceptor_limits (now : Q) (limiter : RateLimiterInterceptor)
  (ctx : Ctx) (req : any) (info : UnaryServerInfo) (handler : grpc.UnaryHandler)
  (s : Run) :
  let res := fst (UnaryServerInterceptor now limiter ctx req info handler) s in
  let out := handler ctx req (world s) in
  fst (TryAdmit now limiter) = (0 <? ratelimit.Available now (tokenBucket limiter)) /\
  res =
    (if fst (TryAdmit now limiter)
     then (fst out, {| world := snd out; trace := trace s ++ [NextStage] |})
     else ((None, Some (StatusError codes.ResourceExhausted "resource exhausted")), s)) /\
  count NextStage (trace (snd res)) =
    (count NextStage (trace s) + if fst (TryAdmit now limiter) then 1 else 0)%nat.
Proof.
  cbv zeta. split; [apply TryAdmit_tokens|].
  unfold UnaryServerInterceptor.
  destruct (TryAdmit now limiter) as [ok r1]. cbn [fst].
  destruct ok.
  - unfold call. destruct (handler ctx req (world s)) as [res w]. cbn [fst snd trace].
    split; [reflexivity|]. apply refresher_claims.count_app.
  - unfold ret, exhausted. cbn [fst snd]. split; [reflexivity|]. lia.
Qed.

End Facts.

End middleware_claims.

(** ** The properties on the values of the examples *)

Module examples.
Import rpc props example.

#[local] Existing Instance externals.
#[local] Existing Instance converters.

Local Open Scope string_scope.

Example NewRateLimiterInterceptor_examples :
  NewRateLimiterInterceptor 0 (10 # 1) 3 = Some limiter /\
  NewRateLimiterInterceptor 0 0 3 = None /\
  NewRateLimiterInterceptor 0 (-1 # 2) 3 = None /\
  NewRateLimiterInterceptor 0 (10 # 1) 0 = None /\
  NewRateLimiterInterceptor 0 (10 # 1) (-4) = None.
Proof. repeat split. Qed.

(** A burst of one lets one call through at a time. *)
Example Limits_burst_one :
  option_map (fun r => fst (Limits [0; 0; 1 # 2; 1; 1]%Q r))
    (NewRateLimiterInterceptor 0 1 1)
  = Some [false; true; true; false; true].
Proof. reflexivity. Qed.

(** After a long pause the bucket is full again and holds no more than the
    burst. *)
Example Limits_refill_capped :
  fst (Limits [0; 0; 0; 0; 100; 100; 100; 100]%Q limiter)
  = [false; false; false; true; false; false; false; true].
Proof. reflexivity. Qed.

Example Refresher_on_unavailable :
  RefresherUnaryClientInterceptor good_refresher tt "Download" None None tt
    (status_invoker codes.Unavailable) [] run0
  = (Some (StatusError codes.Unavailable "call failed"),
     {| world := 101%nat; trace := [NextStage; RefreshCall] |}).
Proof. reflexivity. Qed.

Example Refresher_on_resource_exhausted :
  RefresherStreamClientInterceptor good_refresher tt tt tt "SyncPieces"
    failing_streamer [] run0
  = ((Some 1%nat, Some (StatusError codes.ResourceExhausted "too many streams")),
     {| world := 101%nat; trace := [NextStage; RefreshCall] |}).
Proof. reflexivity. Qed.

Example Refresher_on_not_found :
  RefresherUnaryClientInterceptor good_refresher tt "Download" None None tt
    (status_invoker codes.NotFound) [] run0
  = (Some (StatusError codes.NotFound "call failed"),
     {| world := 1%nat; trace := [NextStage] |}).
Proof. reflexivity. Qed.

Example Refresher_on_domain_error :
  RefresherUnaryClientInterceptor good_refresher tt "Download" None None tt
    domain_invoker [] run0
  = (Some (DfError 4 "piece not found"), {| world := 1%nat; trace := [NextStage] |}).
Proof. reflexivity. Qed.

Example Refresher_on_success :
  RefresherUnaryClientInterceptor good_refresher tt "Download" None None tt
    ok_invoker [] run0
  = (None, {| world := 1%nat; trace := [NextStage] |}).
Proof. reflexivity. Qed.

(** The failure of [Refresh] does not show in what the interceptor returns. *)
Example Refresher_failure_discarded :
  fst (RefresherUnaryClientInterceptor bad_refresher tt "Download" None None tt
         (status_invoker codes.Unavailable) [] run0)
  = Some (StatusError codes.Unavailable "call failed").
Proof. reflexivity. Qed.

Example ConvertErrorUnaryServerInterceptor_on_failure :
  ConvertErrorUnaryServerInterceptor tt None tt failing_handler run0
  = ((Some "partial reply", Some (StatusError codes.Internal "piece not found")),
     {| world := 1%nat; trace := [NextStage] |}).
Proof. reflexivity. Qed.

Example ConvertErrorUnaryServerInterceptor_on_success :
  ConvertErrorUnaryServerInterceptor tt (Some "ping") tt echo_handler run0
  = ((Some "ping", None), {| world := 1%nat; trace := [NextStage] |}).
Proof. reflexivity. Qed.

Example limited_call_short_circuits :
  fst (middleware.UnaryServerInterceptor 0
         (mkRateLimiterInterceptor (ratelimit.mkBucket 0 3 (10 # 1) 0 0))
         tt (Some "ping") tt echo_handler) run0
  = ((None, Some (StatusError codes.ResourceExhausted "resource exhausted")), run0).
Proof. reflexivity. Qed.

Example unlimited_call_proceeds :
  fst (middleware.UnaryServerInterceptor 0 limiter tt (Some "ping") tt echo_handler) run0
  = ((Some "ping", None), {| world := 1%nat; trace := [NextStage] |}).
Proof. reflexivity. Qed.

Lemma converters_keep_failure :
  dferrors.keeps_failure dferrors.ConvertDfErrorToGRPCError /\
  dferrors.keeps_failure dferrors.ConvertGRPCErrorToDfError.
Proof. split; intros [c m|c m|m]; discriminate. Qed.

(** C6 on a failing handler, a failing stream handler, a failing invoker and
    a failing streamer, with the sample converters. *)
Lemma ConvertError_interceptors_keep_outcome_witness :
  dferrors.keeps_failure dferrors.ConvertDfErrorToGRPCError /\
  dferrors.keeps_failure dferrors.ConvertGRPCErrorToDfError /\
  failed (snd (fst (ConvertErrorUnaryServerInterceptor tt None tt failing_handler run0)))
  = failed (snd (fst (failing_handler tt None (world run0)))).
Proof.
  destruct converters_keep_failure as [Hto Hfrom].
  split; [exact Hto|split; [exact Hfrom|]].
  exact (proj1 (proj2 (proj1
    (convert_claims.ConvertError_interceptors_keep_outcome
       tt "Download" None None None tt tt tt tt tt []
       failing_handler failing_stream_handler
       (status_invoker codes.Unavailable) failing_streamer run0 Hto Hfrom)))).
Defined.


(** X2 on the succeeding stages of the examples. *)
Lemma interceptors_pass_success_witness :
  RefresherUnaryClientInterceptor good_refresher tt "Download" None None tt ok_invoker [] run0
    = (None, {| world := 1%nat; trace := [NextStage] |}) /\
  ConvertErrorUnaryServerInterceptor tt (Some "ping") tt echo_handler run0
    = ((Some "ping", None), {| world := 1%nat; trace := [NextStage] |}).
Proof.
  pose proof (convert_claims.interceptors_pass_success good_refresher
                tt "Download" (Some "ping") None None tt tt tt tt tt []
                echo_handler ok_stream_handler ok_invoker ok_streamer run0
                (Some "ping") (Some 1%nat) 1%nat 1%nat 1%nat 1%nat
                eq_refl eq_refl eq_refl eq_refl) as Hpass.
  split; [exact (proj1 Hpass)|].
  exact (proj1 (proj2 (proj2 (proj2 (proj2 Hpass))))).
Defined.

(** Three goroutines, their steps interleaved: all of them return the first
    instance and each constructor has run once. *)
Example OTEL_getters_interleaved_three :
  interleave [0; 1; 2; 2; 0; 1]%nat (map Entering [GetUnary; GetStream; GetUnary]) start
  = ([Returned GetUnary (GotUnary (Some (otelgrpc.UnaryNo 0)));
      Returned GetStream (GotStream (Some (otelgrpc.StreamNo 0)));
      Returned GetUnary (GotUnary (Some (otelgrpc.UnaryNo 0)))],
     mkPackage (Some (otelgrpc.UnaryNo 0)) (Some (otelgrpc.StreamNo 0))
       (sync.mkOnce true) (otelgrpc.mkLibrary 1 1)).
Proof. reflexivity. Qed.

End examples.

(** ** More on the tracing interceptors *)

Module otel_more.
Import rpc props.

(** X3: from any state of the package variables, reached or not, one call of
    a getter settles the package: the [Once] is done, a further call of
    either getter changes nothing (so it constructs nothing), and the same
    getter called again returns what it returned the first time. *)
Theorem getters_settle_package (p : Package) (g1 g2 : getter) :
  sync.done (interceptorsInitialized (snd (get g1 p))) = true /\
  snd (get g2 (snd (get g1 p))) = snd (get g1 p) /\
  fst (get g1 (snd (get g1 p))) = fst (get g1 p).
Proof.
  destruct p as [u s [d] [nu ns]].
  destruct d; destruct g1; destruct g2; repeat split.
Qed.

(** X4: a getter builds nothing when the [Once] is already done: it returns
    what the variable holds, be it [nil], and leaves the package as it is. *)
Theorem getters_after_done (p : Package) :
  sync.done (interceptorsInitialized p) = true ->
  OTELUnaryClientInterceptor p = (otelUnaryInterceptor p, p) /\
  OTELStreamClientInterceptor p = (otelStreamInterceptor p, p).
Proof.
  destruct p as [u s [d] l]. cbn [interceptorsInitialized sync.done].
  intros ->. split; reflexivity.
Qed.

(** X4 on a package whose [Once] is done with nothing built: both getters
    return [nil]. *)
Lemma getters_after_done_witness :
  OTELUnaryClientInterceptor example_more.done_empty = (None, example_more.done_empty) /\
  OTELStreamClientInterceptor example_more.done_empty = (None, example_more.done_empty).
Proof. exact (getters_after_done example_more.done_empty eq_refl). Defined.

End otel_more.

(** ** More on the interceptors *)

Module interceptor_more.
Import rpc props.

Section Facts.
Context {E : Externals} {C : dferrors.Converters}.

Lemma count_snoc_same (ev : event) (t : list event) :
  count ev (t ++ [ev]) = S (count ev t).
Proof.
  rewrite refresher_claims.count_app. destruct ev; cbn; lia.
Qed.

Lemma count_next_after_refresh (r : Refresher) (err : error) (s : Run) :
  count NextStage (trace (after_refresh r err s)) = count NextStage (trace s).
Proof.
  rewrite refresher_claims.after_refresh_trace, refresher_claims.count_app.
  destruct (refresh_status err); cbn; lia.
Qed.

(** X5: each of the six interceptors calls its next stage exactly once,
    with the arguments it was given and on the world it was given, whether
    that stage fails or not: the world afterwards is the one that single call
    left (changed by [Refresh] alone, where a refresher interceptor calls it),
    so none of them calls the next stage again after a failure and none
    returns without calling it. *)
Theorem interceptors_call_next_once (r : Refresher)
  (ctx : Ctx) (method : string) (req reply srv : any) (cc : ClientConn)
  (uinfo : UnaryServerInfo) (sinfo : StreamServerInfo) (ss : ServerStream)
  (desc : StreamDesc) (opts : list CallOption)
  (uhandler : grpc.UnaryHandler) (shandler : grpc.StreamHandler)
  (invoker : grpc.UnaryInvoker) (streamer : grpc.Streamer) (s : Run) :
  let ui := invoker ctx method req reply cc opts (world s) in
  let st := streamer ctx desc cc method opts (world s) in
  let uh := uhandler ctx req (world s) in
  let sh := shandler srv ss (world s) in
  let ru := RefresherUnaryClientInterceptor r ctx method req reply cc invoker opts s in
  let rs := RefresherStreamClientInterceptor r ctx desc cc method streamer opts s in
  let us := ConvertErrorUnaryServerInterceptor ctx req uinfo uhandler s in
  let sv := ConvertErrorStreamServerInterceptor srv ss sinfo shandler s in
  let uc := ConvertErrorUnaryClientInterceptor ctx method req reply cc invoker opts s in
  let sc := ConvertErrorStreamClientInterceptor ctx desc cc method streamer opts s in
  (count NextStage (trace (snd ru)) = S (count NextStage (trace s)) /\
   world (snd ru) =
     (if refresh_status (fst ui) then snd (Refresh r (snd ui)) else snd ui)) /\
  (count NextStage (trace (snd rs)) = S (count NextStage (trace s)) /\
   world (snd rs) =
     (if refresh_status (snd (fst st)) then snd (Refresh r (snd st)) else snd st)) /\
  (snd us = {| world := snd uh; trace := trace s ++ [NextStage] |} /\
   count NextStage (trace (snd us)) = S (count NextStage (trace s))) /\
  (snd sv = {| world := snd sh; trace := trace s ++ [NextStage] |} /\
   count NextStage (trace (snd sv)) = S (count NextStage (trace s))) /\
  (snd uc = {| world := snd ui; trace := trace s ++ [NextStage] |} /\
   count NextStage (trace (snd uc)) = S (count NextStage (trace s))) /\
  (snd sc = {| world := snd st; trace := trace s ++ [NextStage] |} /\
   count NextStage (trace (snd sc)) = S (count NextStage (trace s))).
Proof.
  cbv zeta.
  rewrite refresher_claims.RefresherUnaryClientInterceptor_run,
    refresher_claims.RefresherStreamClientInterceptor_run,
    convert_claims.ConvertErrorUnaryServerInterceptor_run,
    convert_claims.ConvertErrorStreamServerInterceptor_run,
    convert_claims.ConvertErrorUnaryClientInterceptor_run,
    convert_claims.ConvertErrorStreamClientInterceptor_run.
  cbn [snd trace]. rewrite !count_next_after_refresh.
  rewrite !refresher_claims.after_refresh_world. cbn [trace world].
  rewrite !count_snoc_same. repeat split.
Qed.

End Facts.

Section Converters.
Context {E : Externals}.

(** X6: the converters are applied to failures only.  Two pairs of
    converters that agree on every error that is not [nil] give the same four
    interceptors, whatever they would make of [nil]. *)
Theorem converters_see_failures_only (c1 c2 : dferrors.Converters)
  (ctx : Ctx) (method : string) (req reply srv : any) (cc : ClientConn)
  (uinfo : UnaryServerInfo) (sinfo : StreamServerInfo) (ss : ServerStream)
  (desc : StreamDesc) (opts : list CallOption)
  (uhandler : grpc.UnaryHandler) (shandler : grpc.StreamHandler)
  (invoker : grpc.UnaryInvoker) (streamer : grpc.Streamer) (s : Run) :
  (forall e : error_value,
     @dferrors.ConvertDfErrorToGRPCError c1 (Some e)
     = @dferrors.ConvertDfErrorToGRPCError c2 (Some e)) ->
  (forall e : error_value,
     @dferrors.ConvertGRPCErrorToDfError c1 (Some e)
     = @dferrors.ConvertGRPCErrorToDfError c2 (Some e)) ->
  @ConvertErrorUnaryServerInterceptor E c1 ctx req uinfo uhandler s
  = @ConvertErrorUnaryServerInterceptor E c2 ctx req uinfo uhandler s /\
  @ConvertErrorStreamServerInterceptor E c1 srv ss sinfo shandler s
  = @ConvertErrorStreamServerInterceptor E c2 srv ss sinfo shandler s /\
  @ConvertErrorUnaryClientInterceptor E c1 ctx method req reply cc invoker opts s
  = @ConvertErrorUnaryClientInterceptor E c2 ctx method req reply cc invoker opts s /\
  @ConvertErrorStreamClientInterceptor E c1 ctx desc cc method streamer opts s
  = @ConvertErrorStreamClientInterceptor E c2 ctx desc cc method streamer opts s.
Proof.
  intros Hto Hfrom.
  rewrite !convert_claims.ConvertErrorUnaryServerInterceptor_run,
    !convert_claims.ConvertErrorStreamServerInterceptor_run,
    !convert_claims.ConvertErrorUnaryClientInterceptor_run,
    !convert_claims.ConvertErrorStreamClientInterceptor_run.
  assert (Hc1 : forall err, converted (@dferrors.ConvertDfErrorToGRPCError c1) err
                          = converted (@dferrors.ConvertDfErrorToGRPCError c2) err).
  { intros [e|]; [apply Hto|reflexivity]. }
  assert (Hc2 : forall err, converted (@dferrors.ConvertGRPCErrorToDfError c1) err
                          = converted (@dferrors.ConvertGRPCErrorToDfError c2) err).
  { intros [e|]; [apply Hfrom|reflexivity]. }
  rewrite !Hc1, !Hc2. repeat split.
Qed.

End Converters.

End interceptor_more.

(** ** The order of the client interceptors *)

Module chain_more.
Import rpc props chain.

Section Facts.
Context {E : Externals} {C : dferrors.Converters}.

Lemma nested_client_runs (r : Refresher)
  (ctx : Ctx) (method : string) (req reply : any) (cc : ClientConn)
  (invoker : grpc.UnaryInvoker) (opts : list CallOption)
  (s : @Run E) (t : list event) :
  let out := invoker ctx method req reply cc opts (world s) in
  let err := fst out in
  let cerr := converted dferrors.ConvertGRPCErrorToDfError err in
  convert_around_refresher r ctx method req reply cc invoker opts (@mkRun outer s t)
  = (cerr,
     @mkRun outer
       (after_refresh r err
          {| world := snd out; trace := trace s ++ [NextStage] |})
       (t ++ [NextStage])) /\
  refresher_around_convert r ctx method req reply cc invoker opts (@mkRun outer s t)
  = (cerr,
     @after_refresh outer (outer_refresher r) cerr
       (@mkRun outer
          {| world := snd out; trace := trace s ++ [NextStage] |}
          (t ++ [NextStage]))).
Proof.
  cbv zeta. unfold convert_around_refresher, refresher_around_convert. split.
  - rewrite (@convert_claims.ConvertErrorUnaryClientInterceptor_run outer C).
    cbn [world trace].
    rewrite refresher_claims.RefresherUnaryClientInterceptor_run.
    reflexivity.
  - rewrite (@refresher_claims.RefresherUnaryClientInterceptor_run outer).
    cbn [world trace].
    rewrite convert_claims.ConvertErrorUnaryClientInterceptor_run.
    reflexivity.
Qed.

(** X7: the refresher interceptor looks at the error its own next stage
    returns.  With the converting interceptor around the refresher
    interceptor, [Refresh] is called when the error of the invoker carries
    resource-exhausted or unavailable; with the refresher interceptor around
    the converting interceptor, it is called when the converted error does.
    Either way the caller gets the converted error, and [Refresh], when it is
    called, is called once, on the world the invoker left. *)
Theorem refresher_sees_its_next_stage (r : Refresher)
  (ctx : Ctx) (method : string) (req reply : any) (cc : ClientConn)
  (invoker : grpc.UnaryInvoker) (opts : list CallOption)
  (s : @Run E) (t : list event) :
  let out := invoker ctx method req reply cc opts (world s) in
  let err := fst out in
  let cerr := converted dferrors.ConvertGRPCErrorToDfError err in
  let inside :=
    convert_around_refresher r ctx method req reply cc invoker opts (@mkRun outer s t) in
  let outside :=
    refresher_around_convert r ctx method req reply cc invoker opts (@mkRun outer s t) in
  (fst inside = cerr /\
   @world E (@world outer (snd inside))
     = (if refresh_status err then snd (Refresh r (snd out)) else snd out) /\
   count RefreshCall (@trace E (@world outer (snd inside)))
     = (count RefreshCall (trace s) + if refresh_status err then 1 else 0)%nat /\
   count RefreshCall (@trace outer (snd inside)) = count RefreshCall t) /\
  (fst outside = cerr /\
   @world E (@world outer (snd outside))
     = (if refresh_status cerr then snd (Refresh r (snd out)) else snd out) /\
   count RefreshCall (@trace outer (snd outside))
     = (count RefreshCall t + if refresh_status cerr then 1 else 0)%nat /\
   count RefreshCall (@trace E (@world outer (snd outside))) = count RefreshCall (trace s)).
Proof.
  cbv zeta.
  destruct (nested_client_runs r ctx method req reply cc invoker opts s t) as [Hin Hout].
  cbv zeta in Hin, Hout. rewrite Hin, Hout. clear Hin Hout.
  cbn [fst snd world trace]. unfold after_refresh.
  set (out := invoker ctx method req reply cc opts (world s)).
  split.
  - split; [reflexivity|].
    destruct (refresh_status (fst out)); cbn [world trace];
      rewrite ?refresher_claims.count_app; cbn; repeat split; lia.
  - split; [reflexivity|].
    destruct (refresh_status (converted dferrors.ConvertGRPCErrorToDfError (fst out)));
      cbn [world trace outer_refresher Refresh].
    + destruct (Refresh r (snd out)) as [e w]. cbn [snd world trace].
      rewrite !refresher_claims.count_app. cbn. repeat split; lia.
    + rewrite !refresher_claims.count_app. cbn. repeat split; lia.
Qed.

End Facts.

End chain_more.

(** ** The further properties on the values of the examples *)

Module examples_more.
Import rpc props chain example example_more.

#[local] Existing Instance externals.

Local Open Scope string_scope.

Lemma eager_converters_agree :
  (forall e : error_value,
     @dferrors.ConvertDfErrorToGRPCError converters (Some e)
     = @dferrors.ConvertDfErrorToGRPCError eager_converters (Some e)) /\
  (forall e : error_value,
     @dferrors.ConvertGRPCErrorToDfError converters (Some e)
     = @dferrors.ConvertGRPCErrorToDfError eager_converters (Some e)).
Proof. split; intros [c m|c m|m]; reflexivity. Qed.

(** X6 on the sample converters and on converters that would turn [nil]
    into an error: a call that succeeds stays a success with both. *)
Lemma converters_see_failures_only_witness :
  @dferrors.ConvertGRPCErrorToDfError eager_converters None
    = Some (PlainError "nil converted") /\
  @ConvertErrorUnaryClientInterceptor externals converters
    tt "Download" None None tt ok_invoker [] run0
  = @ConvertErrorUnaryClientInterceptor externals eager_converters
      tt "Download" None None tt ok_invoker [] run0 /\
  @ConvertErrorUnaryClientInterceptor externals eager_converters
    tt "Download" None None tt ok_invoker [] run0
  = (None, {| world := 1%nat; trace := [NextStage] |}).
Proof.
  destruct eager_converters_agree as [Hto Hfrom].
  split; [reflexivity|]. split; [|reflexivity].
  exact (proj1 (proj2 (proj2
    (interceptor_more.converters_see_failures_only converters eager_converters
       tt "Download" None None None tt tt tt tt tt []
       echo_handler ok_stream_handler ok_invoker ok_streamer run0 Hto Hfrom)))).
Defined.

(** With the sample converters an unavailable status becomes a domain
    error.  The refresher inside the converting interceptor refreshes on
    it; the refresher outside does not, and the caller sees the same error. *)
Example refresher_inside_refreshes :
  @convert_around_refresher externals converters good_refresher
    tt "Download" None None tt (status_invoker codes.Unavailable) []
    (@mkRun (@outer externals) run0 [])
  = (Some (DfError 14 "call failed"),
     @mkRun (@outer externals)
       {| world := 101%nat; trace := [NextStage; RefreshCall] |} [NextStage]).
Proof. reflexivity. Qed.

Example refresher_outside_does_not_refresh :
  @refresher_around_convert externals converters good_refresher
    tt "Download" None None tt (status_invoker codes.Unavailable) []
    (@mkRun (@outer externals) run0 [])
  = (Some (DfError 14 "call failed"),
     @mkRun (@outer externals)
       {| world := 1%nat; trace := [NextStage] |} [NextStage]).
Proof. reflexivity. Qed.

(** A failing call is not tried again. *)
Example failing_call_made_once :
  snd (@ConvertErrorUnaryClientInterceptor externals converters
         tt "Download" None None tt (status_invoker codes.Unavailable) [] run0)
  = {| world := 1%nat; trace := [NextStage] |}.
Proof. reflexivity. Qed.

End examples_more.
